(** * EventQueue: a shallow embedding of src/js/event-queue.js

    The instance ([EventQueue]) and the part of the DOM it talks to (the
    listener list of [document]) are modelled together in a [World].  Every
    public method is a function on worlds; a method that ends in
    [this._failure(msg)] returns [Throw], carrying the world as it is when
    the error is thrown. *)

From Stdlib Require Import List String Ascii ZArith Bool Lia.
Import ListNotations.
Local Open Scope Z_scope.

(** ** JavaScript array primitives used by the source *)

Module JSArray.

(** [Array.prototype.indexOf] with strict equality on strings. *)
Fixpoint indexOf_from (l : list string) (x : string) (i : Z) : Z :=
  match l with
  | [] => -1
  | y :: l' => if String.eqb y x then i else indexOf_from l' x (i + 1)
  end.

Definition indexOf (l : list string) (x : string) : Z := indexOf_from l x 0.

(** Removal of the element at a position; nothing happens past the end. *)
Fixpoint remove_at {A} (n : nat) (l : list A) : list A :=
  match l, n with
  | [], _ => []
  | _ :: l', O => l'
  | y :: l', S n' => y :: remove_at n' l'
  end.

(** The actual start of [splice(start, ...)]: a negative start counts from
    the end (clamped at 0), a non-negative one is clamped at the length. *)
Definition splice_start (len start : Z) : Z :=
  if start <? 0 then Z.max (len + start) 0 else Z.min start len.

(** [l.splice(start, 1)], returning the array after the removal. *)
Definition splice1 (l : list string) (start : Z) : list string :=
  remove_at (Z.to_nat (splice_start (Z.of_nat (List.length l)) start)) l.

(** [l.push(x)]. *)
Definition push (l : list string) (x : string) : list string := l ++ [x].

End JSArray.

Import JSArray.

(** A JavaScript value on the left of [===]: a number, or an array object. *)
Inductive jsval :=
| JNum (z : Z)
| JArr (l : list string).

(** [v === n] for a number literal [n]: strict equality is false between
    values of different types. *)
Definition strict_eq_num (v : jsval) (n : Z) : bool :=
  match v with
  | JNum z => Z.eqb z n
  | JArr _ => false
  end.

(** ** The DOM side: [document]'s listener list *)

(** A listener entry: the event type and the identity of the listener
    function (each call of [_buildListeners] creates a fresh closure). *)
Record listener := mkListener {
  l_type : string;
  l_fn : nat
}.

Definition listener_eqb (a b : listener) : bool :=
  String.eqb (l_type a) (l_type b) && Nat.eqb (l_fn a) (l_fn b).

(** [addEventListener(type, fn)]: appended unless the same pair is present. *)
Definition addEventListener (d : list listener) (t : string) (fn : nat)
  : list listener :=
  if existsb (listener_eqb (mkListener t fn)) d then d
  else d ++ [mkListener t fn].

(** [removeEventListener(type, callback)]: removes the entry whose type is
    [type] and whose callback is [callback].  An omitted callback
    ([undefined], converted to [null]) is [None]; no entry has a [null]
    callback, so nothing matches it. *)
Definition removeEventListener (d : list listener) (t : string)
  (callback : option nat) : list listener :=
  filter (fun l => negb (String.eqb (l_type l) t
                         && match callback with
                            | Some f => Nat.eqb (l_fn l) f
                            | None => false
                            end)) d.

(** Number of listeners registered for an event type. *)
Definition count_listeners (t : string) (d : list listener) : nat :=
  List.length (filter (fun l => String.eqb (l_type l) t) d).

(** ** The instance *)

(** The callback stored in [_callback]: the empty function installed by the
    constructor and by [reset], or a user function (identified by a tag). *)
Inductive callback :=
| CbNoop
| CbUser (tag : nat).

Record EventQueue := mkEventQueue {
  id : string;
  _queue : list string;
  _events : list string;
  _completedEvents : list string;
  _hasBuilt : bool;
  _callback : callback;
  _targetCount : nat
}.

(** [new EventQueue()]; the random id is a parameter. *)
Definition new_EventQueue (i : string) : EventQueue :=
  mkEventQueue i [] [] [] false CbNoop 0.

(** The single instance together with [document]: its listener list, the
    next fresh closure identity, and the log of callback invocations. *)
Record World := mkWorld {
  doc : list listener;
  next_fn : nat;
  self : EventQueue;
  calls : list callback
}.

Definition set_self (w : World) (q : EventQueue) : World :=
  mkWorld (doc w) (next_fn w) q (calls w).

Definition init (i : string) : World := mkWorld [] 0 (new_EventQueue i) [].

(** ** Errors *)

(** The four calls of [_failure] in the source. *)
Inductive failure :=
| NothingQueued
| AlreadyBuilt
| NotBuilt
| NoEventsFound (name : string).

Definition dq : string := String (ascii_of_nat 34) EmptyString.

(** The message passed to [_failure]; [_failure] throws
    [new Error('[EventQueue FAILURE]: ' + msg)]. *)
Definition failure_msg (e : failure) : string :=
  match e with
  | NothingQueued => "You need to queue events first, use queueEvent(name, count) to add events to the queue first."
  | AlreadyBuilt => "Queue already built, cannot build again. Use reset() to start over with the same instance."
  | NotBuilt => "No event listeners created. Execute build() first."
  | NoEventsFound name => "No events found with name " ++ dq ++ name ++ dq
  end%string.

(** The error taxonomy of the spec, as a classification of those errors. *)
Inductive error_kind := InvalidStateError | LookupError.

Definition kind (e : failure) : error_kind :=
  match e with
  | NoEventsFound _ => LookupError
  | _ => InvalidStateError
  end.

Inductive result :=
| Ok (w : World)
| Throw (e : failure) (w : World).

Definition outcome_world (r : result) : World :=
  match r with Ok w => w | Throw _ w => w end.

(** ** Methods *)

Module EQ.

(** The loop [for (var i = 0; i < count; i++) this._queue.push(name);]
    runs [Z.to_nat count] times for an integer [count]. *)
Fixpoint push_times (l : list string) (name : string) (n : nat) : list string :=
  match n with
  | O => l
  | S n' => push_times (push l name) name n'
  end.

(** [queueEvent(name, count)]; an omitted [count] is [None]. *)
Definition queueEvent (q : EventQueue) (name : string) (count : option Z)
  : EventQueue :=
  let queue' :=
    match count with
    | Some c => push_times (_queue q) name (Z.to_nat c)
    | None => push (_queue q) name
    end in
  mkEventQueue (id q) queue' (_events q) (_completedEvents q) (_hasBuilt q)
    (_callback q) (_targetCount q).

(** [addCallback(callback)]. *)
Definition addCallback (q : EventQueue) (cb : callback) : EventQueue :=
  mkEventQueue (id q) (_queue q) (_events q) (_completedEvents q) (_hasBuilt q)
    cb (_targetCount q).

(** [isComplete()]: note that the middle conjunct is [this._events === 0]. *)
Definition isComplete (q : EventQueue) : bool :=
  Nat.eqb (List.length (_queue q)) 0
  && strict_eq_num (JArr (_events q)) 0
  && Nat.eqb (List.length (_completedEvents q)) (_targetCount q).

(** [_buildListeners()]: a fresh closure [function (event) {
    _this._pollProgress(event); }] is added for the type [this.id]. *)
Definition _buildListeners (w : World) : World :=
  mkWorld (addEventListener (doc w) (id (self w)) (next_fn w))
    (S (next_fn w)) (self w) (calls w).

(** [_destroyListeners()]: [document.removeEventListener(this.id)], with no
    listener argument. *)
Definition _destroyListeners (w : World) : World :=
  mkWorld (removeEventListener (doc w) (id (self w)) None)
    (next_fn w) (self w) (calls w).

(** [this._callback()]: the invocation is recorded in the log. *)
Definition invoke_callback (w : World) : World :=
  mkWorld (doc w) (next_fn w) (self w) (calls w ++ [_callback (self w)]).

(** [reset()]. *)
Definition reset (w : World) : World :=
  let q := self w in
  let w1 := set_self w (mkEventQueue (id q) [] [] [] false (_callback q) 0) in
  let w2 := _destroyListeners w1 in
  let q2 := self w2 in
  set_self w2 (mkEventQueue (id q2) (_queue q2) (_events q2)
                 (_completedEvents q2) (_hasBuilt q2) CbNoop (_targetCount q2)).

(** [_failure(msg)]: listeners destroyed, then the error is thrown. *)
Definition _failure (w : World) (e : failure) : result :=
  Throw e (_destroyListeners w).

(** [_pollProgress(event)] with [event.detail.name = name]. *)
Definition _pollProgress (w : World) (name : string) : World :=
  let q := self w in
  let index := indexOf (_events q) name in
  let events' := splice1 (_events q) index in
  let completed' := push (_completedEvents q) name in
  let w1 := set_self w (mkEventQueue (id q) (_queue q) events' completed'
                          (_hasBuilt q) (_callback q) (_targetCount q)) in
  if Nat.eqb (List.length completed') (_targetCount q)
  then reset (invoke_callback w1)
  else w1.

(** [document.dispatchEvent(new CustomEvent(t, {detail: {name: name}}))]:
    the listeners of type [t] in a snapshot of the list are invoked in order,
    synchronously, skipping any removed meanwhile.  Every listener of the
    world was installed by [_buildListeners] of this instance, so invoking
    one runs [_pollProgress]. *)
Fixpoint dispatch_to (w : World) (snapshot : list listener) (t name : string)
  : World :=
  match snapshot with
  | [] => w
  | l :: rest =>
      if String.eqb (l_type l) t && existsb (listener_eqb l) (doc w)
      then dispatch_to (_pollProgress w name) rest t name
      else dispatch_to w rest t name
  end.

Definition dispatchEvent (w : World) (t name : string) : World :=
  dispatch_to w (doc w) t name.

(** [triggerEvent(name)]. *)
Definition triggerEvent (w : World) (name : string) : result :=
  let q := self w in
  if _hasBuilt q then
    if negb (Z.eqb (indexOf (_events q) name) (-1))
    then Ok (dispatchEvent w (id q) name)
    else _failure w (NoEventsFound name)
  else _failure w NotBuilt.

(** The copy loop of [build]: [this._events.push(this._queue[i])] for
    every [i < this._targetCount], the whole queue. *)
Fixpoint push_all (l : list string) (xs : list string) : list string :=
  match xs with
  | [] => l
  | x :: xs' => push_all (push l x) xs'
  end.

(** [build()]. *)
Definition build (w : World) : result :=
  let q := self w in
  if negb (_hasBuilt q) && Nat.ltb 0 (List.length (_queue q)) then
    let target := List.length (_queue q) in
    let events' := push_all (_events q) (_queue q) in
    let w1 := set_self w (mkEventQueue (id q) [] events' (_completedEvents q)
                            (_hasBuilt q) (_callback q) target) in
    let w2 := _buildListeners w1 in
    let q2 := self w2 in
    Ok (set_self w2 (mkEventQueue (id q2) (_queue q2) (_events q2)
                       (_completedEvents q2) true (_callback q2)
                       (_targetCount q2)))
  else if negb (_hasBuilt q) && Nat.eqb (List.length (_queue q)) 0 then
    _failure w NothingQueued
  else
    _failure w AlreadyBuilt.

(** Sequences of public calls on the instance.  A thrown error is caught by
    the caller, who goes on with the instance as the error left it. *)
Inductive op :=
| OQueueEvent (name : string) (count : option Z)
| OAddCallback (cb : callback)
| OBuild
| OTriggerEvent (name : string)
| OReset.

Definition exec (w : World) (o : op) : result :=
  match o with
  | OQueueEvent name count => Ok (set_self w (queueEvent (self w) name count))
  | OAddCallback cb => Ok (set_self w (addCallback (self w) cb))
  | OBuild => build w
  | OTriggerEvent name => triggerEvent w name
  | OReset => Ok (reset w)
  end.

Fixpoint run (w : World) (os : list op) : World :=
  match os with
  | [] => w
  | o :: os' => run (outcome_world (exec w o)) os'
  end.

End EQ.

Import EQ.

(** ** Auxiliary definitions for the statements *)

(** [n] deliveries of the same occurrence to [_pollProgress]. *)
Fixpoint poll_times (n : nat) (w : World) (name : string) : World :=
  match n with
  | O => w
  | S n' => poll_times n' (_pollProgress w name) name
  end.

(** A staging sequence: [queueEvent(name, count)] calls, in order. *)
Definition enqueue_ops (ops : list (string * option Z)) : list op :=
  map (fun p => OQueueEvent (fst p) (snd p)) ops.

(** The count of one call as the spec reads it: the given count, 1 if
    omitted. *)
Definition given_count (c : option Z) : Z :=
  match c with Some c => c | None => 1 end.

(** Sum of the given counts over all calls. *)
Definition given_count_sum (ops : list (string * option Z)) : Z :=
  fold_right (fun p acc => given_count (snd p) + acc) 0 ops.

(** Sum of the counts, a non-positive count contributing 0. *)
Definition positive_count_sum (ops : list (string * option Z)) : Z :=
  fold_right (fun p acc => Z.max 0 (given_count (snd p)) + acc) 0 ops.

(** The names staged by the calls, each repeated by its count. *)
Definition staged_names (ops : list (string * option Z)) : list string :=
  flat_map (fun p => repeat (fst p) (Z.to_nat (given_count (snd p)))) ops.


(** Removal of the first occurrence of a name (reference for [_pollProgress]). *)
Fixpoint remove_first (x : string) (l : list string) : list string :=
  match l with
  | [] => []
  | y :: l' => if String.eqb y x then l' else y :: remove_first x l'
  end.



(** ** General lemmas on the model *)

Lemma removeEventListener_no_callback : forall d t,
  removeEventListener d t None = d.
Proof.
  induction d as [|l d IH]; intro t; simpl; [reflexivity|].
  rewrite andb_false_r; simpl; now rewrite IH.
Qed.

Lemma destroyListeners_id : forall w, _destroyListeners w = w.
Proof.
  intros [d n q cs]; unfold _destroyListeners; simpl.
  now rewrite removeEventListener_no_callback.
Qed.

Lemma pollProgress_doc : forall w name, doc (_pollProgress w name) = doc w.
Proof.
  intros w name; unfold _pollProgress.
  destruct (Nat.eqb _ _); [|reflexivity].
  unfold reset; now rewrite destroyListeners_id.
Qed.

Lemma listener_eqb_refl : forall l, listener_eqb l l = true.
Proof.
  intros [t f]; unfold listener_eqb; simpl.
  now rewrite String.eqb_refl, Nat.eqb_refl.
Qed.

Lemma dispatch_to_poll_times : forall s w t name,
  (forall l, In l s -> In l (doc w)) ->
  dispatch_to w s t name = poll_times (count_listeners t s) w name.
Proof.
  induction s as [|l s IH]; intros w t name Hin; simpl; [reflexivity|].
  assert (Hl : existsb (listener_eqb l) (doc w) = true).
  { apply existsb_exists; exists l; split;
      [apply Hin; now left | apply listener_eqb_refl]. }
  rewrite Hl, andb_true_r; unfold count_listeners; simpl.
  destruct (String.eqb (l_type l) t); simpl.
  - apply IH; intros l' Hl'; rewrite pollProgress_doc; apply Hin; now right.
  - apply IH; intros l' Hl'; apply Hin; now right.
Qed.

Lemma indexOf_from_found : forall l x i,
  In x l -> i <= indexOf_from l x i.
Proof.
  induction l as [|y l IH]; intros x i Hin; simpl; [contradiction|].
  destruct (String.eqb_spec y x); [lia|].
  destruct Hin as [-> | Hin]; [congruence|].
  specialize (IH x (i + 1) Hin); lia.
Qed.

Lemma indexOf_found : forall l x, In x l -> indexOf l x <> -1.
Proof.
  intros l x Hin; pose proof (indexOf_from_found l x 0 Hin).
  unfold indexOf; lia.
Qed.

(** A report of a pending name delivers it synchronously to every listener
    registered for the instance's id. *)
Lemma triggerEvent_delivers : forall w name,
  _hasBuilt (self w) = true ->
  In name (_events (self w)) ->
  triggerEvent w name
  = Ok (poll_times (count_listeners (id (self w)) (doc w)) w name).
Proof.
  intros w name Hb Hin; unfold triggerEvent; rewrite Hb.
  apply indexOf_found in Hin; apply Z.eqb_neq in Hin; rewrite Hin; simpl.
  unfold dispatchEvent; f_equal; apply dispatch_to_poll_times; auto.
Qed.


Lemma push_times_app : forall n l name, push_times l name n = l ++ repeat name n.
Proof.
  induction n as [|n IH]; intros l name; simpl; [now rewrite app_nil_r|].
  rewrite IH; unfold push; now rewrite <- app_assoc.
Qed.

Lemma push_all_app : forall xs l, push_all l xs = l ++ xs.
Proof.
  induction xs as [|x xs IH]; intro l; simpl; [now rewrite app_nil_r|].
  rewrite IH; unfold push; now rewrite <- app_assoc.
Qed.

(** Staging calls only append to [_queue]. *)
Lemma run_enqueue : forall ops w,
  run w (enqueue_ops ops)
  = set_self w (mkEventQueue (id (self w)) (_queue (self w) ++ staged_names ops)
                  (_events (self w)) (_completedEvents (self w))
                  (_hasBuilt (self w)) (_callback (self w))
                  (_targetCount (self w))).
Proof.
  induction ops as [|[name c] ops IH]; intros [d n [i qu ev co hb cb tc] cs].
  - simpl; now rewrite app_nil_r.
  - simpl; rewrite IH; simpl; rewrite app_assoc.
    destruct c as [c|]; simpl; [now rewrite push_times_app|reflexivity].
Qed.

Lemma length_staged_names : forall ops,
  Z.of_nat (List.length (staged_names ops)) = positive_count_sum ops.
Proof.
  induction ops as [|[name c] ops IH]; simpl; [reflexivity|].
  rewrite length_app, repeat_length, Nat2Z.inj_add, IH; lia.
Qed.

(** ** Claims *)

(** C1: with one name staged once on a new instance holding callback [cb],
    [build()] succeeds, and delivering that name once to [_pollProgress]
    invokes [cb] exactly once and leaves the instance as freshly constructed
    ([_queue], [_events], [_completedEvents] empty, [_targetCount = 0],
    [_hasBuilt = false], [_callback] the no-op). *)
Theorem single_event_round_trip : forall i cb d n cs name,
  exists w1,
    build (mkWorld d n (queueEvent (addCallback (new_EventQueue i) cb) name None) cs)
    = Ok w1
    /\ self (_pollProgress w1 name) = new_EventQueue i
    /\ calls (_pollProgress w1 name) = cs ++ [cb].
Proof.
  intros i cb d n cs name; eexists; split; [reflexivity|].
  unfold _pollProgress; simpl; split; reflexivity.
Qed.

(** C2 (counterexample): the target count is not the sum of the given
    counts: staging [a] with count 1 and [b] with count -1, [build()]
    succeeds with [_targetCount = 1] while the counts sum to 0. *)
Lemma target_count_sum_counterexample :
  ~ (forall i ops w,
       build (run (init i) (enqueue_ops ops)) = Ok w ->
       Z.of_nat (_targetCount (self w)) = given_count_sum ops).
Proof.
  intro H.
  specialize (H "q"%string [("a"%string, Some 1); ("b"%string, Some (-1))]).
  vm_compute in H; specialize (H _ eq_refl); discriminate H.
Qed.

(** C2 (amended): after staging calls on a new instance and a successful
    [build()], [_targetCount] is the sum of the counts where an omitted count
    is 1 and a non-positive count is 0, [_events] is exactly the staged
    names in order, each repeated by its count, and [_queue] is empty. *)
Theorem build_after_staging : forall i ops w,
  build (run (init i) (enqueue_ops ops)) = Ok w ->
  Z.of_nat (_targetCount (self w)) = positive_count_sum ops
  /\ _events (self w) = staged_names ops
  /\ _queue (self w) = [].
Proof.
  intros i ops w H; rewrite run_enqueue in H; unfold build in H; simpl in H.
  destruct (Nat.ltb 0 (List.length (staged_names ops))) eqn:Hl; simpl in H.
  - inversion H; subst; simpl.
    rewrite length_staged_names, push_all_app; simpl; auto.
  - destruct (Nat.eqb _ _); discriminate H.
Qed.

Lemma build_after_staging_witness :
  exists w,
    build (run (init "q") (enqueue_ops [("a"%string, None); ("b"%string, Some 2)]))
    = Ok w
    /\ (Z.of_nat (_targetCount (self w))
        = positive_count_sum [("a"%string, None); ("b"%string, Some 2)]
        /\ _events (self w) = staged_names [("a"%string, None); ("b"%string, Some 2)]
        /\ _queue (self w) = []).
Proof.
  eexists; split; [reflexivity|].
  apply (build_after_staging "q"%string _ _); reflexivity.
Defined.

(** C3 (failing input): after [build()], [reset()] and a second [build()]
    on the same instance, both closures installed by the two builds are
    registered for its id, so one report of [a] is delivered twice: the
    second delivery finds no [a] in [_events], [indexOf] gives -1 and
    [splice(-1, 1)] drops the last pending name [c].  Pending is then [b]
    while the names staged at build time minus the completed ones are
    [b; c]. *)
Theorem stale_listener_double_delivery :
  let w := run (init "q") [OQueueEvent "a" None; OBuild; OReset;
                           OQueueEvent "a" None; OQueueEvent "b" None;
                           OQueueEvent "c" None; OBuild] in
  count_listeners "q" (doc w) = 2%nat
  /\ _events (self w) = ["a"; "b"; "c"]%string
  /\ triggerEvent w "a" = Ok (poll_times 2 w "a")
  /\ _events (self (poll_times 2 w "a")) = ["b"]%string
  /\ _completedEvents (self (poll_times 2 w "a")) = ["a"; "a"]%string.
Proof.
  vm_compute; repeat split.
Qed.

(** C4 (counterexample): [isComplete()] is not equivalent to the three
    conditions: a new instance meets all of them and reports [false]. *)
Lemma isComplete_iff_counterexample :
  ~ (forall q, isComplete q = true
               <-> (_queue q = [] /\ _events q = []
                    /\ List.length (_completedEvents q) = _targetCount q)).
Proof.
  intro H; destruct (H (new_EventQueue "q"%string)) as [_ H2].
  discriminate (H2 (conj eq_refl (conj eq_refl eq_refl))).
Qed.

(** C4 (amended): [isComplete()] returns [false] even when [_queue] and
    [_events] are empty and [_completedEvents.length === _targetCount], as
    on a new or just reset instance. *)
Theorem isComplete_false_when_drained : forall q,
  _queue q = [] -> _events q = [] ->
  List.length (_completedEvents q) = _targetCount q ->
  isComplete q = false.
Proof.
  intros q Hq He Hc; unfold isComplete; simpl.
  now rewrite andb_false_r.
Qed.

Lemma isComplete_false_when_drained_witness :
  (_queue (new_EventQueue "q") = [] /\ _events (new_EventQueue "q") = []
   /\ List.length (_completedEvents (new_EventQueue "q"))
      = _targetCount (new_EventQueue "q"))
  /\ isComplete (new_EventQueue "q") = false.
Proof.
  split; [repeat split|].
  apply isComplete_false_when_drained; reflexivity.
Defined.

(** C5 (counterexample): [triggerEvent] does change [_events] and
    [_completedEvents] before it returns: [document.dispatchEvent] runs the
    listener synchronously.  Staging [a] twice, building and reporting [a]
    leaves [_events = [a]] and [_completedEvents = [a]]. *)
Lemma report_frame_counterexample :
  ~ (forall w name w',
       _hasBuilt (self w) = true -> In name (_events (self w)) ->
       triggerEvent w name = Ok w' ->
       _events (self w') = _events (self w)
       /\ _completedEvents (self w') = _completedEvents (self w)).
Proof.
  intro H.
  specialize (H (run (init "q") [OQueueEvent "a" (Some 2); OBuild]) "a"%string).
  specialize (H _ eq_refl (or_introl eq_refl) eq_refl).
  destruct H as [H _]; discriminate H.
Qed.

(** C5 (amended): with the single registration of one [build()], reporting
    a pending name delivers it synchronously: when [triggerEvent] returns,
    [_pollProgress] has already removed the first matching entry from
    [_events] and appended the name to [_completedEvents] (invoking the
    callback and resetting when the target is reached). *)
Theorem report_delivers_synchronously : forall w name,
  _hasBuilt (self w) = true ->
  In name (_events (self w)) ->
  count_listeners (id (self w)) (doc w) = 1%nat ->
  triggerEvent w name = Ok (_pollProgress w name).
Proof.
  intros w name Hb Hin H1.
  rewrite (triggerEvent_delivers w name Hb Hin), H1; reflexivity.
Qed.

Lemma report_delivers_synchronously_witness :
  (_hasBuilt (self (run (init "q") [OQueueEvent "a" (Some 2); OBuild])) = true
   /\ In "a"%string (_events (self (run (init "q") [OQueueEvent "a" (Some 2); OBuild])))
   /\ count_listeners "q" (doc (run (init "q") [OQueueEvent "a" (Some 2); OBuild])) = 1%nat)
  /\ triggerEvent (run (init "q") [OQueueEvent "a" (Some 2); OBuild]) "a"
     = Ok (_pollProgress (run (init "q") [OQueueEvent "a" (Some 2); OBuild]) "a").
Proof.
  split; [split; [reflexivity | split; [simpl; left; reflexivity | reflexivity]]|].
  apply report_delivers_synchronously;
    [reflexivity | simpl; left; reflexivity | reflexivity].
Defined.

(** C6 (failing input): [queueEvent] has no check of [_hasBuilt]; staging
    after a successful [build()] gives [_hasBuilt = true] with a non-empty
    [_queue]. *)
Theorem queueEvent_after_build :
  let w := run (init "q") [OQueueEvent "a" None; OBuild; OQueueEvent "b" None] in
  _hasBuilt (self w) = true /\ _queue (self w) = ["b"%string].
Proof.
  vm_compute; split; reflexivity.
Qed.

(** C7 (failing input): a report before [build()] throws the not-built
    error and a report of an unknown name after it throws the lookup error,
    each leaving the instance unchanged; but the registration installed by
    [build()] is still there after the failure, since [_failure] calls
    [removeEventListener(this.id)] without the listener. *)
Theorem failed_report_keeps_registration :
  let w0 := run (init "q") [OQueueEvent "a" None] in
  let w := run (init "q") [OQueueEvent "a" None; OBuild] in
  triggerEvent w0 "a" = Throw NotBuilt w0
  /\ kind NotBuilt = InvalidStateError
  /\ triggerEvent w "b" = Throw (NoEventsFound "b") w
  /\ kind (NoEventsFound "b") = LookupError
  /\ count_listeners "q" (doc w) = 1%nat.
Proof.
  vm_compute; repeat split.
Qed.

(** C8: [build()] throws an [InvalidStateError] leaving the instance
    unchanged exactly when [_hasBuilt] is true or [_queue] is empty; and
    after a successful [build()] a second one throws and keeps the state of
    the first. *)
Theorem build_failure_cases : forall w,
  ((exists e w', build w = Throw e w' /\ kind e = InvalidStateError
                 /\ self w' = self w)
   <-> (_hasBuilt (self w) = true \/ _queue (self w) = []))
  /\ (forall w1, build w = Ok w1 ->
        exists e w2, build w1 = Throw e w2 /\ kind e = InvalidStateError
                     /\ self w2 = self w1).
Proof.
  intros w; unfold build, _failure; rewrite destroyListeners_id.
  destruct (_hasBuilt (self w)) eqn:Hb; simpl.
  - split; [split; [intros _; now left | intros _; eauto] | discriminate].
  - destruct (_queue (self w)) as [|x qu] eqn:Hq; simpl.
    + split; [split; [intros _; now right | intros _; eauto] | discriminate].
    + split.
      * split; [intros (e & w' & H & _); discriminate H|].
        intros [H|H]; discriminate H.
      * intros w1 H; inversion H; subst; clear H; simpl.
        rewrite destroyListeners_id; eauto.
Qed.

Lemma build_failure_cases_witness :
  exists w1,
    build (run (init "q") [OQueueEvent "a" None]) = Ok w1
    /\ exists e w2, build w1 = Throw e w2 /\ kind e = InvalidStateError
                    /\ self w2 = self w1.
Proof.
  eexists; split; [reflexivity|].
  apply (proj2 (build_failure_cases (run (init "q") [OQueueEvent "a" None])));
    reflexivity.
Defined.

(** C9 (failing input): [reset()] does not remove the listener installed by
    [build()] ([removeEventListener(this.id)] names no listener), so a
    [build()] after a [reset()] leaves two listeners for the instance's id;
    a report is then delivered twice. *)
Theorem reset_keeps_registration :
  count_listeners "q" (doc (run (init "q") [OQueueEvent "a" None; OBuild; OReset]))
    = 1%nat
  /\ count_listeners "q" (doc (run (init "q") [OQueueEvent "a" None; OBuild; OReset;
                                               OQueueEvent "a" None; OBuild]))
    = 2%nat.
Proof.
  vm_compute; split; reflexivity.
Qed.

(** C10: [isComplete()] returns [false] in every state, since
    [this._events === 0] compares an array with a number. *)
Theorem isComplete_always_false : forall q, isComplete q = false.
Proof.
  intro q; unfold isComplete; simpl; now rewrite andb_false_r.
Qed.

(** ** Further properties of the source *)

(** *** Array primitives as [_pollProgress] uses them *)

Lemma indexOf_from_pos : forall l x i, In x l ->
  exists k, indexOf_from l x i = i + Z.of_nat k
            /\ (k < List.length l)%nat /\ remove_at k l = remove_first x l.
Proof.
  induction l as [|y l IH]; intros x i Hin; [contradiction|]; simpl.
  destruct (String.eqb_spec y x) as [->|Hne].
  - exists O; split; [lia|]; split; [simpl; lia | reflexivity].
  - destruct Hin as [->|Hin]; [congruence|].
    destruct (IH x (i + 1) Hin) as (k & Hk & Hlt & Hr).
    exists (S k); split; [rewrite Hk; lia|]; split; [lia|].
    simpl; now rewrite Hr.
Qed.

Lemma splice1_indexOf_in : forall l x, In x l ->
  splice1 l (indexOf l x) = remove_first x l.
Proof.
  intros l x Hin; unfold splice1, indexOf.
  destruct (indexOf_from_pos l x 0 Hin) as (k & Hk & Hlt & Hr); rewrite Hk.
  unfold splice_start.
  replace (0 + Z.of_nat k <? 0) with false by (symmetry; apply Z.ltb_ge; lia).
  replace (Z.to_nat (Z.min (0 + Z.of_nat k) (Z.of_nat (List.length l)))) with k
    by lia.
  exact Hr.
Qed.

Lemma indexOf_from_notin : forall l x i, ~ In x l -> indexOf_from l x i = -1.
Proof.
  induction l as [|y l IH]; intros x i Hin; simpl; [reflexivity|].
  destruct (String.eqb_spec y x) as [->|Hne]; [exfalso; apply Hin; now left|].
  apply IH; intro H; apply Hin; now right.
Qed.

Lemma remove_at_pred_length : forall l : list string,
  remove_at (Nat.pred (List.length l)) l = removelast l.
Proof.
  induction l as [|y l IH]; [reflexivity|].
  destruct l as [|z l]; [reflexivity|].
  simpl in *; now rewrite IH.
Qed.

Lemma splice1_minus_one : forall l, splice1 l (-1) = removelast l.
Proof.
  intro l; unfold splice1, splice_start; simpl.
  replace (Z.to_nat (Z.max (Z.of_nat (List.length l) + -1) 0))
    with (Nat.pred (List.length l)) by lia.
  apply remove_at_pred_length.
Qed.



(** *** [_pollProgress] *)

Lemma pollProgress_not_drained : forall w name,
  S (List.length (_completedEvents (self w))) <> _targetCount (self w) ->
  _pollProgress w name
  = set_self w (mkEventQueue (id (self w)) (_queue (self w))
                  (splice1 (_events (self w)) (indexOf (_events (self w)) name))
                  (_completedEvents (self w) ++ [name]) (_hasBuilt (self w))
                  (_callback (self w)) (_targetCount (self w))).
Proof.
  intros w name Hne; unfold _pollProgress.
  replace (Nat.eqb _ _) with false; [reflexivity|].
  symmetry; apply Nat.eqb_neq; unfold push; rewrite length_app; simpl; lia.
Qed.

(** A delivery of a pending name that does not complete the target removes
    the first matching entry of [_events] and appends the name to
    [_completedEvents], without calling the callback. *)
Theorem pollProgress_removes_first_match : forall w name,
  In name (_events (self w)) ->
  S (List.length (_completedEvents (self w))) <> _targetCount (self w) ->
  _events (self (_pollProgress w name)) = remove_first name (_events (self w))
  /\ _completedEvents (self (_pollProgress w name))
     = _completedEvents (self w) ++ [name]
  /\ calls (_pollProgress w name) = calls w.
Proof.
  intros w name Hin Hne; rewrite (pollProgress_not_drained w name Hne); simpl.
  rewrite splice1_indexOf_in by exact Hin; auto.
Qed.

Lemma pollProgress_removes_first_match_witness :
  let w := run (init "q") [OQueueEvent "a" None; OQueueEvent "b" None;
                           OQueueEvent "a" None; OBuild] in
  (In "a"%string (_events (self w))
   /\ S (List.length (_completedEvents (self w))) <> _targetCount (self w))
  /\ (_events (self (_pollProgress w "a")) = remove_first "a" (_events (self w))
      /\ _completedEvents (self (_pollProgress w "a"))
         = _completedEvents (self w) ++ ["a"%string]
      /\ calls (_pollProgress w "a") = calls w).
Proof.
  intro w; split; [split; [simpl; left; reflexivity | simpl; discriminate]|].
  apply pollProgress_removes_first_match; [simpl; left; reflexivity | simpl; discriminate].
Defined.

(** A delivery of a name that is not pending (not completing the target)
    still removes an entry: [indexOf] gives -1 and [splice(-1, 1)] drops
    the last pending name; the name is appended to [_completedEvents]. *)
Theorem pollProgress_absent_removes_last : forall w name,
  ~ In name (_events (self w)) ->
  S (List.length (_completedEvents (self w))) <> _targetCount (self w) ->
  _events (self (_pollProgress w name)) = removelast (_events (self w))
  /\ _completedEvents (self (_pollProgress w name))
     = _completedEvents (self w) ++ [name].
Proof.
  intros w name Hin Hne; rewrite (pollProgress_not_drained w name Hne); simpl.
  unfold indexOf; rewrite indexOf_from_notin by exact Hin.
  rewrite splice1_minus_one; auto.
Qed.

Lemma pollProgress_absent_removes_last_witness :
  let w := run (init "q") [OQueueEvent "a" None; OQueueEvent "b" None;
                           OQueueEvent "c" None; OBuild] in
  (~ In "z"%string (_events (self w))
   /\ S (List.length (_completedEvents (self w))) <> _targetCount (self w))
  /\ (_events (self (_pollProgress w "z")) = removelast (_events (self w))
      /\ _completedEvents (self (_pollProgress w "z"))
         = _completedEvents (self w) ++ ["z"%string]).
Proof.
  intro w; split.
  - split; [simpl; intros [H|[H|[H|H]]]; discriminate H || exact H|simpl; discriminate].
  - apply pollProgress_absent_removes_last;
      [simpl; intros [H|[H|[H|H]]]; discriminate H || exact H | simpl; discriminate].
Defined.

(** A delivery that brings [_completedEvents] to the target calls the
    stored callback once and resets the instance to its constructed state,
    keeping its id; the listener list is left as it was. *)
Theorem pollProgress_drain_resets : forall w name,
  S (List.length (_completedEvents (self w))) = _targetCount (self w) ->
  self (_pollProgress w name) = new_EventQueue (id (self w))
  /\ calls (_pollProgress w name) = calls w ++ [_callback (self w)]
  /\ doc (_pollProgress w name) = doc w.
Proof.
  intros w name Heq; unfold _pollProgress.
  replace (Nat.eqb _ _) with true
    by (symmetry; apply Nat.eqb_eq; unfold push; rewrite length_app; simpl; lia).
  unfold reset; rewrite destroyListeners_id; simpl; auto.
Qed.

Lemma pollProgress_drain_resets_witness :
  let w := run (init "q") [OQueueEvent "a" None; OAddCallback (CbUser 5); OBuild] in
  S (List.length (_completedEvents (self w))) = _targetCount (self w)
  /\ (self (_pollProgress w "a") = new_EventQueue (id (self w))
      /\ calls (_pollProgress w "a") = calls w ++ [_callback (self w)]
      /\ doc (_pollProgress w "a") = doc w).
Proof.
  intro w; split; [reflexivity|].
  apply pollProgress_drain_resets; reflexivity.
Defined.

(** *** [reset], [queueEvent], [build] *)

(** [reset()] puts back the constructed state of every field, keeping the
    id; it neither calls the callback nor changes the listener list. *)
Theorem reset_restores_constructed_state : forall w,
  self (reset w) = new_EventQueue (id (self w))
  /\ doc (reset w) = doc w
  /\ calls (reset w) = calls w.
Proof.
  intro w; unfold reset; rewrite destroyListeners_id; simpl; auto.
Qed.

(** [queueEvent(name, count)] changes only [_queue], appending [count]
    copies of [name] (one when [count] is omitted, none when it is not
    positive); it is allowed in every state, also after [build()]. *)
Theorem queueEvent_appends_only_queue : forall q name c,
  queueEvent q name c
  = mkEventQueue (id q) (_queue q ++ repeat name (Z.to_nat (given_count c)))
      (_events q) (_completedEvents q) (_hasBuilt q) (_callback q)
      (_targetCount q).
Proof.
  intros q name [c|]; unfold queueEvent; simpl;
    [now rewrite push_times_app | reflexivity].
Qed.

(** A successful [build()] starts from a not-built instance with a
    non-empty [_queue]; it appends the whole queue to [_events] (keeping
    what [_events] held), empties [_queue], sets the target to the queue's
    length and [_hasBuilt], leaves [_completedEvents] and the callback, and
    adds a listener for the id with the next fresh closure. *)
Theorem build_success_effect : forall w w',
  build w = Ok w' ->
  _hasBuilt (self w) = false /\ _queue (self w) <> []
  /\ self w' = mkEventQueue (id (self w)) [] (_events (self w) ++ _queue (self w))
                 (_completedEvents (self w)) true (_callback (self w))
                 (List.length (_queue (self w)))
  /\ doc w' = addEventListener (doc w) (id (self w)) (next_fn w)
  /\ next_fn w' = S (next_fn w)
  /\ calls w' = calls w.
Proof.
  intros w w' H; unfold build, _failure in H.
  destruct (_hasBuilt (self w)) eqn:Hb; simpl in H;
    [discriminate H|].
  destruct (_queue (self w)) as [|x qu] eqn:Hq; simpl in H; [discriminate H|].
  inversion H; subst; clear H; simpl.
  rewrite push_all_app; unfold push; rewrite <- app_assoc.
  repeat split; try reflexivity; discriminate.
Qed.

Lemma build_success_effect_witness :
  exists w',
    build (run (init "q") [OQueueEvent "a" (Some 2)]) = Ok w'
    /\ (_hasBuilt (self (run (init "q") [OQueueEvent "a" (Some 2)])) = false
        /\ _queue (self (run (init "q") [OQueueEvent "a" (Some 2)])) <> []
        /\ self w' = mkEventQueue "q" [] (_events (self (run (init "q") [OQueueEvent "a" (Some 2)]))
                                          ++ _queue (self (run (init "q") [OQueueEvent "a" (Some 2)])))
                       [] true CbNoop 2
        /\ doc w' = addEventListener [] "q" 0
        /\ next_fn w' = 1%nat
        /\ calls w' = []).
Proof.
  eexists; split; [reflexivity|].
  apply (build_success_effect (run (init "q") [OQueueEvent "a" (Some 2)])).
  reflexivity.
Defined.

(** *** The listener list across public calls *)









(** *** One lifecycle with a single listener *)





